(** * nmnh_ms_tools: the georeferencer example and its data bootstrap

    The repository ships the georeferencer as a library that is driven from
    two notebooks and configured by YAML documents:

    - the data bootstrap notebook (refresh-data), whose cells create the
      SQLite stores when their file is missing;
    - the georeferencer notebook, which registers the pipes, enables the
      caches, runs [geo.georeference()] and exports [results.csv];
    - the configuration documents ([.nmtrc] and the copies next to the
      notebooks), whose [data] mapping names the store files.

    The notebooks and the configuration are embedded cell by cell.  The
    pipe chain behind [geo.georeference()] lives in the library and is
    modelled from its specification where a statement needs it. *)

From Stdlib Require Import QArith Qcanon.
From stdpp Require Import gmap strings list fin_maps.

Set Default Proof Using "Type".
Open Scope string_scope.
Open Scope list_scope.
Open Scope nat_scope.

(** ** Python exceptions raised by the notebook cells *)

Inductive exn : Type :=
| FileNotFoundError
| KeyError (key : string)
| AttributeError
| IndexError.

Global Instance exn_eq_dec : EqDecision exn.
Proof. solve_decision. Defined.

(** ** Configuration documents *)

Module Config.

(** A block mapping of plain scalars, entry by entry as the document
    lists them (a key may be written twice). *)
Definition mapping : Type := list (string * string).

(** Loading a mapping into a [dict]: the entries are stored in document
    order, so a key written twice keeps its last value. *)
Definition load (m : mapping) : gmap string string :=
  fold_left (λ d kv, <[kv.1 := kv.2]> d) m ∅.

(** The entries a mapping writes for a key, in document order. *)
Definition entries_for (k : string) (m : mapping) : mapping :=
  filter (λ kv, kv.1 = k) m.

(** [data:] of the first document of src/unnamed/part_002 (lines 6-13). *)
Definition part_002_first_data : mapping :=
  [ ("admin", "databases/admin.json");
    ("custom", "databases/custom.sqlite");
    ("geonames", "databases/geonames.sqlite");
    ("georef_data", "databases/georef_data.sqlite");
    ("georef_job", "job.sqlite");
    ("natural_earth", "databases/natural_earth.sqlite");
    ("natural_earth", "databases/thesaurus.yml") ].

(** [data:] of the second document of src/unnamed/part_002 (lines 227-234). *)
Definition part_002_second_data : mapping :=
  [ ("admin", "databases/admin.json");
    ("custom", "databases/custom.sqlite");
    ("geonames", "databases/geonames.sqlite");
    ("geohelper", "databases/geohelper.sqlite");
    ("georef_job", "job.sqlite");
    ("natural_earth", "databases/natural_earth.sqlite");
    ("thesaurus", "databases/thesaurus.yml") ].

(** [data:] of src/nmnh_ms_tools/_files/config/.nmtrc (lines 7-18). *)
Definition nmtrc_data : mapping :=
  [ ("admin", "~/data/nmnh_ms_tools/geo/admin.sqlite");
    ("custom", "~/data/nmnh_ms_tools/geo/custom.sqlite");
    ("geonames", "~/data/nmnh_ms_tools/geo/geonames.sqlite");
    ("geohelper", "~/data/nmnh_ms_tools/geo/geohelper.sqlite");
    ("georef_job", "job.sqlite");
    ("gvp", "~/data/nmnh_ms_tools/geo/GVP_Volcano_List*.xlsx");
    ("natural_earth", "~/data/nmnh_ms_tools/geo/natural_earth.sqlite");
    ("thesaurus", "~/data/nmnh_ms_tools/geo/thesaurus.yml");
    ("taxa_tree", "~/data/nmnh_ms_tools/taxa/geotree.json");
    ("name_index", "~/data/nmnh_ms_tools/taxa/name_index.json");
    ("stem_index", "~/data/nmnh_ms_tools/taxa/stem_index.json") ].

End Config.

(** ** The data bootstrap notebook (src/unnamed/part_000) *)

Module RefreshData.

Inductive poolclass : Type := NullPool.

(** The library calls the cells make.  Their bodies are not part of the
    notebook: a call is recorded, and what it does to the file system is
    left to the [effect] parameter below; a call is taken to return (a
    call that raises would end the cell with its exception).
    [X().from_csv(path)] is one call (the constructor has no arguments). *)
Inductive call : Type :=
| init_geonames_db (pool : option poolclass)
| GeoNamesFeatures_from_csv (path : string)
| init_admin_db (pool : option poolclass)
| AdminFeatures_from_csv (path : string)
| init_natural_earth_db (path : string) (pool : option poolclass)
| init_helper_db (pool : option poolclass)
| fill_ocean_table
| fill_natural_earth_combined_table
| fill_alternative_polygons_table
| init_custom_db (pool : option poolclass)
| CustomFeatures_from_csv (path : string).

Section Cells.

(** The file system the notebook runs against. *)
Variable world : Type.
(** [isfile w p]: [open(p)] finds a file to read. *)
Variable isfile : world → string → bool.
(** [glob w dir]: the paths [Path(dir).glob("*.csv")] yields. *)
Variable glob : world → string → list string.
(** What a library call leaves behind. *)
Variable effect : call → world → world.

(** State of a run: the file system and the calls made so far. *)
Definition state : Type := world * list call.

(** A cell either finishes or raises. *)
Definition Cell (A : Type) : Type := state → (exn + A) * state.

Definition ret {A} (a : A) : Cell A := λ s, (inr a, s).

Definition raise {A} (e : exn) : Cell A := λ s, (inl e, s).

Definition bind {A B} (m : Cell A) (k : A → Cell B) : Cell B :=
  λ s, match m s with
       | (inr a, s') => k a s'
       | (inl e, s') => (inl e, s')
       end.

Definition seq {A B} (m : Cell A) (k : Cell B) : Cell B :=
  bind m (λ _, k).

(** A library call: it is logged and applied to the file system. *)
Definition invoke (c : call) : Cell unit :=
  λ s, (inr tt, (effect c s.1, s.2 ++ [c])).

(** [d[k]] on the loaded [data] mapping. *)
Definition getitem (d : gmap string string) (k : string) : Cell string :=
  match d !! k with
  | Some v => ret v
  | None => raise (KeyError k)
  end.

(** [open(path)] for reading: [FileNotFoundError] when there is no such
    file.  The other ways [open] can fail (a directory at the path, no
    permission) are not modelled: the cells are followed on paths that are
    a readable file or nothing. *)
Definition open (path : string) : Cell unit :=
  λ s, if isfile s.1 path then (inr tt, s) else (inl FileNotFoundError, s).

(** [try: body / except FileNotFoundError: handler / else: orelse].
    Any other exception leaves the statement. *)
Definition try_except_FileNotFoundError
    (body handler orelse : Cell unit) : Cell unit :=
  λ s, match body s with
       | (inr _, s') => orelse s'
       | (inl FileNotFoundError, s') => handler s'
       | (inl e, s') => (inl e, s')
       end.

(** [for x in xs: body x] *)
Fixpoint for_each {A} (xs : list A) (body : A → Cell unit) : Cell unit :=
  match xs with
  | [] => ret tt
  | x :: rest => seq (body x) (for_each rest body)
  end.

Variable data : gmap string string.   (* CONFIG["data"] *)

(** Cell 2: the main GeoNames database. *)
Definition geonames_cell : Cell unit :=
  try_except_FileNotFoundError
    (bind (getitem data "geonames") open)
    (seq (invoke (init_geonames_db (Some NullPool)))
         (invoke (GeoNamesFeatures_from_csv "data/sources/allCountries.txt")))
    (ret tt).

(** Cell 3: the administrative division database. *)
Definition admin_cell : Cell unit :=
  try_except_FileNotFoundError
    (bind (getitem data "admin") open)
    (seq (invoke (init_admin_db (Some NullPool)))
         (invoke (AdminFeatures_from_csv "data/sources/allCountries.txt")))
    (invoke (init_admin_db None)).

(** Cell 4: the georeferencing helper database. *)
Definition geohelper_cell : Cell unit :=
  try_except_FileNotFoundError
    (bind (getitem data "geohelper") open)
    (seq (invoke (init_natural_earth_db
                    "data/sources/natural_earth_vector.sqlite" (Some NullPool)))
    (seq (invoke (init_helper_db (Some NullPool)))
    (seq (invoke fill_ocean_table)
    (seq (invoke fill_natural_earth_combined_table)
         (invoke fill_alternative_polygons_table)))))
    (ret tt).

(** Cell 5: the custom locality database.  Its [try] body opens the
    file and then raises [FileNotFoundError] itself. *)
Definition custom_try_body : Cell unit :=
  seq (bind (getitem data "custom") open)
      (raise FileNotFoundError).

Definition custom_cell : Cell unit :=
  try_except_FileNotFoundError
    custom_try_body
    (seq (invoke (init_custom_db (Some NullPool)))
         (λ s, for_each (glob s.1 "data/sources/custom")
                        (λ path, invoke (CustomFeatures_from_csv path)) s))
    (ret tt).

(** Running the notebook top to bottom: a cell that raises stops the run.
    (Cell 1 only imports names and configures the log.) *)
Definition run_all : Cell unit :=
  seq geonames_cell (seq admin_cell (seq geohelper_cell custom_cell)).

(** The cells that come before the geohelper cell. *)
Definition before_geohelper : Cell unit := seq geonames_cell admin_cell.

(** What the [except] branch of each cell does: the rebuild. *)
Definition geonames_rebuild : list call :=
  [ init_geonames_db (Some NullPool);
    GeoNamesFeatures_from_csv "data/sources/allCountries.txt" ].

Definition admin_rebuild : list call :=
  [ init_admin_db (Some NullPool);
    AdminFeatures_from_csv "data/sources/allCountries.txt" ].

Definition geohelper_rebuild : list call :=
  [ init_natural_earth_db "data/sources/natural_earth_vector.sqlite" (Some NullPool);
    init_helper_db (Some NullPool);
    fill_ocean_table;
    fill_natural_earth_combined_table;
    fill_alternative_polygons_table ].

Definition custom_rebuild (w : world) : list call :=
  init_custom_db (Some NullPool)
  :: map CustomFeatures_from_csv
       (glob (effect (init_custom_db (Some NullPool)) w) "data/sources/custom").

(** The calls a cell made, when run from file system [w]. *)
Definition calls_of {A} (c : Cell A) (w : world) : list call := (c (w, [])).2.2.

(** How a cell ended. *)
Definition outcome_of {A} (c : Cell A) (w : world) : exn + A := (c (w, [])).1.

(** The file system after a row of library calls. *)
Definition apply_calls (cs : list call) (w : world) : world :=
  fold_left (λ w' c, effect c w') cs w.

End Cells.

End RefreshData.

(** ** The georeferencer notebook (src/examples/georeferencer/georeferencer.ipynb) *)

Module GeorefNotebook.

(** The pipe classes imported from [nmnh_ms_tools.tools.georeferencer.pipes]. *)
Inductive pipe_class : Type :=
| MatchManual | MatchPLSS | MatchBetween | MatchBorder
| MatchOffshore | MatchDirection | MatchCustom | MatchGeoNames.

Global Instance pipe_class_eq_dec : EqDecision pipe_class.
Proof. solve_decision. Defined.

(** A pipe object: every call [MatchX()] builds a new one, told apart by
    the order of construction. *)
Record pipe : Type := Pipe { cls : pipe_class; oid : nat }.

Global Instance pipe_eq_dec : EqDecision pipe.
Proof. solve_decision. Defined.

(** The [init_db] calls of the setup cell. *)
Inductive db_call : Type :=
| init_admin_db | init_custom_db | init_geohelper_db | init_geonames_db
| init_geojob_db (path : string).

(** State held by the classes themselves, shared by all their instances:
    the attribute [Site.pipe], and the caches switched on by the class
    methods [MatchGeoNames.enable_sqlite_cache] and
    [Site.enable_sqlite_cache] (recorded with their path). *)
Record class_state : Type := ClassState {
  Site_pipe : option pipe;
  MatchGeoNames_sqlite_cache : option string;
  Site_sqlite_cache : option string;
}.

(** The kernel the cells run in. *)
Record kernel : Type := Kernel {
  next_oid : nat;
  classes : class_state;
  dbs : list db_call;
}.

Definition fresh : kernel :=
  {| next_oid := 0;
     classes := {| Site_pipe := None;
                   MatchGeoNames_sqlite_cache := None;
                   Site_sqlite_cache := None |};
     dbs := [] |}.

Definition K (A : Type) : Type := kernel → A * kernel.

Definition kret {A} (a : A) : K A := λ k, (a, k).

Definition kbind {A B} (m : K A) (f : A → K B) : K B :=
  λ k, let '(a, k') := m k in f a k'.

Definition kseq {A B} (m : K A) (n : K B) : K B := kbind m (λ _, n).

(** [c()] : a new instance of pipe class [c]. *)
Definition new (c : pipe_class) : K pipe :=
  λ k, ({| cls := c; oid := next_oid k |},
        {| next_oid := S (next_oid k); classes := classes k; dbs := dbs k |}).

(** [Site.pipe = p] *)
Definition set_Site_pipe (p : pipe) : K unit :=
  λ k, (tt, {| next_oid := next_oid k;
               classes := {| Site_pipe := Some p;
                             MatchGeoNames_sqlite_cache :=
                               MatchGeoNames_sqlite_cache (classes k);
                             Site_sqlite_cache := Site_sqlite_cache (classes k) |};
               dbs := dbs k |}).

(** [MatchGeoNames.enable_sqlite_cache(path)] *)
Definition MatchGeoNames_enable_sqlite_cache (path : string) : K unit :=
  λ k, (tt, {| next_oid := next_oid k;
               classes := {| Site_pipe := Site_pipe (classes k);
                             MatchGeoNames_sqlite_cache := Some path;
                             Site_sqlite_cache := Site_sqlite_cache (classes k) |};
               dbs := dbs k |}).

(** [Site.enable_sqlite_cache(path)] *)
Definition Site_enable_sqlite_cache (path : string) : K unit :=
  λ k, (tt, {| next_oid := next_oid k;
               classes := {| Site_pipe := Site_pipe (classes k);
                             MatchGeoNames_sqlite_cache :=
                               MatchGeoNames_sqlite_cache (classes k);
                             Site_sqlite_cache := Some path |};
               dbs := dbs k |}).

Definition init_db (c : db_call) : K unit :=
  λ k, (tt, {| next_oid := next_oid k; classes := classes k; dbs := dbs k ++ [c] |}).

(** [[c() for c in cs]], built left to right. *)
Fixpoint new_all (cs : list pipe_class) : K (list pipe) :=
  match cs with
  | [] => kret []
  | c :: rest => kbind (new c) (λ p, kbind (new_all rest) (λ ps, kret (p :: ps)))
  end.

(** The classes of the [pipes] list, in the order the cell writes them
    ([MatchOffshore] is commented out there). *)
Definition pipe_order : list pipe_class :=
  [ MatchManual; MatchPLSS; MatchBetween; MatchBorder;
    MatchDirection; MatchCustom; MatchGeoNames ].

(** [tests = None] *)
Definition tests : option (list string) := None.

(** The setup cell (lines 80-112); its value is the [pipes] list. *)
Definition setup_cell : K (list pipe) :=
  kbind (new MatchGeoNames) (λ p0,
  kseq (set_Site_pipe p0) (
  kseq (init_db init_admin_db) (
  kseq (init_db init_custom_db) (
  kseq (init_db init_geohelper_db) (
  kseq (init_db init_geonames_db) (
  kseq (init_db (init_geojob_db "job.sqlite")) (
  kbind (new_all pipe_order) (λ pipes,
  kseq (match tests with
        | None =>
            kseq (MatchGeoNames_enable_sqlite_cache "caches/records.sqlite")
                 (Site_enable_sqlite_cache "caches/localities.sqlite")
        | Some _ => kret tt
        end)
       (kret pipes))))))))).

(** The options of the [Georeferencer] object as the notebook sets them
    (lines 139-151). *)
Record Georeferencer : Type := {
  records : list (gmap string string);
  pipes : list pipe;
  geo_tests : option (list string);
  skip : nat;
  limit : option nat;
  id_key : string;
  allow_sparse : bool;
  allow_invalid_coords : bool;
  coord_type : string;
  place_type : string;
  require_coords : bool;
  include_failed : bool;
}.

Definition make_geo (sites : list (gmap string string)) (ps : list pipe) : Georeferencer :=
  {| records := sites; pipes := ps; geo_tests := tests; skip := 0; limit := Some 200;
     id_key := "location_id";
     allow_sparse := true;
     allow_invalid_coords := false;
     coord_type := "any";
     place_type := "any";
     require_coords := false;
     include_failed := true |}.

(** The design C6 describes: no strategy and no cache switch is held by a
    class. *)
Definition no_class_level_state (k : kernel) : Prop :=
  Site_pipe (classes k) = None
  ∧ MatchGeoNames_sqlite_cache (classes k) = None
  ∧ Site_sqlite_cache (classes k) = None.

(** *** The export cell (lines 164-177) *)

(** One geometry of a site, printed by [str] as its text. *)
Record shape : Type := Shape { wkt : string }.

(** The geometry object of a site: [.geom] is its list of shapes. *)
Record geometry_obj : Type := GeometryObj { geom : list shape }.

Record site : Type := Site { geometry : option geometry_obj }.

(** Values found in a result dictionary. *)
Inductive value : Type :=
| VNone
| VStr (s : string)
| VFloat (x : Qc)
| VSite (s : site).

(** A row handed to [csv.DictWriter.writerow]. *)
Record row : Type := Row {
  record_number : value;
  geometry_text : string;
  radius_km : value;
  description : value;
}.

Section ExportCell.

(** [GeoMetry.simplify()], a library method. *)
Variable simplify : geometry_obj → geometry_obj.

Definition result_dict : Type := gmap string value.

(** [result[key]] *)
Definition item (result : result_dict) (key : string) : exn + value :=
  match result !! key with
  | Some v => inr v
  | None => inl (KeyError key)
  end.

(** [result["site"].geometry.simplify().geom[0]] *)
Definition first_geom (result : result_dict) : exn + shape :=
  match item result "site" with
  | inl e => inl e
  | inr (VSite s) =>
      match geometry s with
      | None => inl AttributeError
      | Some g =>
          match geom (simplify g) with
          | [] => inl IndexError
          | sh :: _ => inr sh
          end
      end
  | inr _ => inl AttributeError
  end.

(** The body of the [try]: the row that [writerow] receives, or the
    exception raised before it is written. *)
Definition row_of (result : result_dict) : exn + row :=
  match first_geom result with
  | inl e => inl e
  | inr sh =>
      match item result "location_id" with
      | inl e => inl e
      | inr number =>
          match item result "radius_km" with
          | inl e => inl e
          | inr radius =>
              match item result "description" with
              | inl e => inl e
              | inr descr =>
                  inr {| record_number := number;
                         geometry_text := wkt sh;
                         radius_km := radius;
                         description := descr |}
              end
          end
      end
  end.

(** [for result in ...: try: ... except KeyError: pass]: the rows written
    so far (after the header), and the exception that ended the loop, if
    any. *)
Fixpoint write_rows (results : list result_dict) (written : list row)
  : list row * option exn :=
  match results with
  | [] => (written, None)
  | result :: rest =>
      match row_of result with
      | inr r => write_rows rest (written ++ [r])
      | inl (KeyError _) => write_rows rest written
      | inl e => (written, Some e)
      end
  end.

(** [geo.evaluated] is a dictionary: its values come in insertion order. *)
Definition export (evaluated : list (string * result_dict)) : list row * option exn :=
  write_rows (map snd evaluated) [].

(** A result that carries a geometry. *)
Definition has_geometry (result : result_dict) : Prop :=
  ∃ s g, result !! "site" = Some (VSite s) ∧ geometry s = Some g.

(** The record of a result shows up in the rows. *)
Definition appears_in (result : result_dict) (rows : list row) : Prop :=
  ∃ r number, r ∈ rows ∧ result !! "location_id" = Some number ∧ record_number r = number.

(** What C5 asks of the export: with [include_failed] set, every
    result without a geometry shows up in the rows. *)
Definition failed_records_exported
    (geo : Georeferencer) (evaluated : list (string * result_dict)) : Prop :=
  include_failed geo = true →
  ∀ id result, (id, result) ∈ evaluated → ¬ has_geometry result →
               appears_in result (export evaluated).1.

(** The row a result contributes when the loop gets past it. *)
Definition written (result : result_dict) : option row :=
  match row_of result with
  | inr r => Some r
  | inl _ => None
  end.

(** The exception with which a result ends the loop: whatever its row
    raises, except [KeyError]. *)
Definition stops (result : result_dict) : option exn :=
  match row_of result with
  | inr _ => None
  | inl (KeyError _) => None
  | inl e => Some e
  end.

End ExportCell.

(** *** The log filter (lines 64-67) *)

(** [GeoreferencerOnlyFilter.filter(record)], on the logger name
    [record.name]: [name.startswith("nmnh_ms_tools.tools.georeferencer")]. *)
Definition GeoreferencerOnlyFilter_filter (name : string) : bool :=
  String.prefix "nmnh_ms_tools.tools.georeferencer" name.

End GeorefNotebook.

(** ** The pipe chain behind [geo.georeference()] *)

Module Orchestrator.
Import GeorefNotebook.

(** The strategy a pipe class stands for, by the name the notebook imports
    it under. *)
Definition strategy_name (c : pipe_class) : string :=
  match c with
  | MatchManual => "MatchManual"
  | MatchPLSS => "MatchPLSS"
  | MatchBetween => "MatchBetween"
  | MatchBorder => "MatchBorder"
  | MatchOffshore => "MatchOffshore"
  | MatchDirection => "MatchDirection"
  | MatchCustom => "MatchCustom"
  | MatchGeoNames => "MatchGeoNames"
  end.

(** Modelled from the spec: a description cites the strategy used (the
    code that writes descriptions is in the library): the text opens with
    the strategy's name, followed by what the pipe has to say. *)
Definition describe (c : pipe_class) (reasoning : string) : string :=
  (strategy_name c ++ ": " ++ reasoning)%string.

(** A text cites strategy [c]. *)
Definition cites (c : pipe_class) (text : string) : Prop :=
  ∃ reasoning, text = describe c reasoning.

Section Model.

Variable record : Type.     (* LocalityRecord *)
Variable geometry : Type.
(** Whatever the library reads and writes while it works on a record:
    gazetteer stores, caches, the job store. *)
Variable state : Type.

(** Modelled from the spec: what a pipe resolves a record to (the pipe
    classes are library code): a geometry, an uncertainty radius in km
    and the sources and reasoning it cites. *)
Record resolution : Type := Resolution {
  res_geometry : geometry;
  res_radius_km : Qc;
  res_citation : string;
}.

(** Modelled from the spec: the three ways an attempt can go (library
    code): a match, a normal no-match, or a hard failure on input the pipe
    cannot even attempt. *)
Inductive outcome : Type :=
| matched (res : resolution)
| no_match
| hard_failure.

(** Modelled from the spec: a MatchResult (library code) carries the
    resolution, the pipe that produced it and the description, which
    cites the strategy used. *)
Record MatchResult : Type := Match {
  resolved : resolution;
  produced_by : pipe;
  description : string;
}.

(** What each pipe object does with a record, in a given state of the
    stores: library code, a parameter here. *)
Variable behaviour : pipe → record → state → outcome * state.

(** Modelled from the spec: the result reported when pipe [p] has
    resolved a record (library code): it is described under the pipe's
    own strategy. *)
Definition report (p : pipe) (res : resolution) : MatchResult :=
  {| resolved := res;
     produced_by := p;
     description := describe (cls p) (res_citation res) |}.

(** What a pass over a chain yields: the pipes tried, those among them
    whose hard failure was logged, and the result, if any. *)
Record pass : Type := Pass {
  tried : list pipe;
  logged : list pipe;
  result : option MatchResult;
}.

(** Modelled from the spec: the Orchestrator's dispatch of one record
    (library code): the pipes of the chain are tried in order, each in the
    state the pipes before it left; the first success wins and no further
    pipe runs; a no-match falls through to the next pipe, and so does a
    hard failure, which is logged. *)
Fixpoint dispatch (chain : list pipe) (r : record) (st : state) : pass * state :=
  match chain with
  | [] => ({| tried := []; logged := []; result := None |}, st)
  | p :: rest =>
      match behaviour p r st with
      | (matched res, st') =>
          ({| tried := [p]; logged := []; result := Some (report p res) |}, st')
      | (no_match, st') =>
          let '(o, st'') := dispatch rest r st' in
          ({| tried := p :: tried o; logged := logged o; result := result o |}, st'')
      | (hard_failure, st') =>
          let '(o, st'') := dispatch rest r st' in
          ({| tried := p :: tried o; logged := p :: logged o; result := result o |}, st'')
      end
  end.

(** The pipes of a list are attempted in order on [r], starting in state
    [st]; none matches, [log] are the ones that failed hard, and [st'] is
    the state they leave. *)
Inductive fall_through (r : record) : list pipe → state → list pipe → state → Prop :=
| fall_through_nil st : fall_through r [] st [] st
| fall_through_no_match p pre st st1 log st' :
    behaviour p r st = (no_match, st1) →
    fall_through r pre st1 log st' →
    fall_through r (p :: pre) st log st'
| fall_through_hard_failure p pre st st1 log st' :
    behaviour p r st = (hard_failure, st1) →
    fall_through r pre st1 log st' →
    fall_through r (p :: pre) st (p :: log) st'.

End Model.

Arguments Resolution {geometry} _ _ _.
Arguments res_citation {geometry} _.
Arguments matched {geometry} res.
Arguments no_match {geometry}.
Arguments hard_failure {geometry}.
Arguments Match {geometry} _ _ _.
Arguments resolved {geometry} _.
Arguments produced_by {geometry} _.
Arguments description {geometry} _.
Arguments report {geometry} p res.
Arguments Pass {geometry} _ _ _.
Arguments tried {geometry} _.
Arguments logged {geometry} _.
Arguments result {geometry} _.
Arguments dispatch {record geometry state} behaviour chain r st.
Arguments fall_through {record geometry state} behaviour r _ _ _ _.

End Orchestrator.

(** * Properties *)

(** ** Configuration *)

Lemma part_002_first_lookup_geonames :
  Config.load Config.part_002_first_data !! "geonames" = Some "databases/geonames.sqlite".
Proof. vm_compute. reflexivity. Qed.

Lemma part_002_first_lookup_admin :
  Config.load Config.part_002_first_data !! "admin" = Some "databases/admin.json".
Proof. vm_compute. reflexivity. Qed.

Lemma part_002_first_lookup_geohelper :
  Config.load Config.part_002_first_data !! "geohelper" = None.
Proof. vm_compute. reflexivity. Qed.

Lemma part_002_first_lookup_natural_earth :
  Config.load Config.part_002_first_data !! "natural_earth" = Some "databases/thesaurus.yml".
Proof. vm_compute. reflexivity. Qed.

(** ** The data bootstrap notebook *)

Section RefreshDataFacts.
Import RefreshData.

Context {world : Type}.
Variable isfile : world → string → bool.
Variable glob : world → string → list string.
Variable effect : call → world → world.

Local Abbreviation calls c := (calls_of world c).
Local Abbreviation outcome c := (outcome_of world c).

(** Library calls in a row append to the log and never raise. *)
Lemma for_each_invoke (f : string → call) (paths : list string) (w : world) (log : list call) :
  ∃ w', for_each world paths (λ p, invoke world effect (f p)) (w, log)
        = (inr tt, (w', log ++ map f paths)).
Proof.
  revert w log. induction paths as [|p paths IH]; intros w log.
  - exists w. simpl. by rewrite app_nil_r.
  - simpl. unfold seq, bind, invoke at 1. simpl.
    destruct (IH (effect (f p) w) (log ++ [f p])) as [w' Hw'].
    exists w'. rewrite Hw'. by rewrite <- app_assoc.
Qed.

Variable data : gmap string string.

Lemma geonames_cell_spec (w : world) :
  match data !! "geonames" with
  | Some path =>
      calls (geonames_cell world isfile effect data) w
      = (if isfile w path then [] else geonames_rebuild)
      ∧ outcome (geonames_cell world isfile effect data) w = inr tt
  | None =>
      calls (geonames_cell world isfile effect data) w = []
      ∧ outcome (geonames_cell world isfile effect data) w = inl (KeyError "geonames")
  end.
Proof.
  unfold calls_of, outcome_of, geonames_cell, try_except_FileNotFoundError,
    bind, getitem, open.
  destruct (data !! "geonames") as [path|]; simpl; [|done].
  by destruct (isfile w path).
Qed.

Lemma admin_cell_spec (w : world) :
  match data !! "admin" with
  | Some path =>
      calls (admin_cell world isfile effect data) w
      = (if isfile w path then [init_admin_db None] else admin_rebuild)
      ∧ outcome (admin_cell world isfile effect data) w = inr tt
  | None =>
      calls (admin_cell world isfile effect data) w = []
      ∧ outcome (admin_cell world isfile effect data) w = inl (KeyError "admin")
  end.
Proof.
  unfold calls_of, outcome_of, admin_cell, try_except_FileNotFoundError,
    bind, getitem, open.
  destruct (data !! "admin") as [path|]; simpl; [|done].
  by destruct (isfile w path).
Qed.

Lemma geohelper_cell_spec (w : world) :
  match data !! "geohelper" with
  | Some path =>
      calls (geohelper_cell world isfile effect data) w
      = (if isfile w path then [] else geohelper_rebuild)
      ∧ outcome (geohelper_cell world isfile effect data) w = inr tt
  | None =>
      calls (geohelper_cell world isfile effect data) w = []
      ∧ outcome (geohelper_cell world isfile effect data) w = inl (KeyError "geohelper")
  end.
Proof.
  unfold calls_of, outcome_of, geohelper_cell, try_except_FileNotFoundError,
    bind, getitem, open.
  destruct (data !! "geohelper") as [path|]; simpl; [|done].
  by destruct (isfile w path).
Qed.

Lemma custom_cell_spec (w : world) :
  match data !! "custom" with
  | Some path =>
      calls (custom_cell world isfile glob effect data) w = custom_rebuild world glob effect w
      ∧ outcome (custom_cell world isfile glob effect data) w = inr tt
  | None =>
      calls (custom_cell world isfile glob effect data) w = []
      ∧ outcome (custom_cell world isfile glob effect data) w = inl (KeyError "custom")
  end.
Proof.
  unfold calls_of, outcome_of, custom_cell, custom_try_body,
    try_except_FileNotFoundError, seq, bind, getitem, open, custom_rebuild.
  destruct (data !! "custom") as [path|]; simpl; [|done].
  set (w1 := effect (init_custom_db (Some NullPool)) w).
  destruct (for_each_invoke CustomFeatures_from_csv (glob w1 "data/sources/custom")
              w1 [init_custom_db (Some NullPool)]) as [w' Hw'].
  destruct (isfile w path); simpl; fold w1; by rewrite Hw'.
Qed.

Lemma custom_try_body_raises (w : world) :
  match data !! "custom" with
  | Some path => outcome (custom_try_body world isfile data) w = inl FileNotFoundError
  | None => outcome (custom_try_body world isfile data) w = inl (KeyError "custom")
  end.
Proof.
  unfold outcome_of, custom_try_body, seq, bind, getitem, open.
  destruct (data !! "custom") as [path|]; simpl; [|done].
  by destruct (isfile w path).
Qed.

(** C9. The custom locality cell rebuilds the custom store on every run:
    when [CONFIG["data"]["custom"]] names a path, the [try] body ends in
    [FileNotFoundError] whether or not the file exists, so the cell always
    calls [init_custom_db] and imports every CSV again.  The geonames,
    admin and geohelper cells run their rebuild only when [open] does not
    find the file (with the file present the admin cell only calls
    [init_admin_db()], the two others call nothing). *)
Theorem custom_cell_rebuilds_on_every_run (w : world) :
  match data !! "custom" with
  | Some path =>
      outcome (custom_try_body world isfile data) w = inl FileNotFoundError
      ∧ calls (custom_cell world isfile glob effect data) w
        = custom_rebuild world glob effect w
      ∧ outcome (custom_cell world isfile glob effect data) w = inr tt
  | None => outcome (custom_cell world isfile glob effect data) w = inl (KeyError "custom")
  end
  ∧ match data !! "geonames" with
    | Some path =>
        calls (geonames_cell world isfile effect data) w
        = (if isfile w path then [] else geonames_rebuild)
    | None => calls (geonames_cell world isfile effect data) w = []
    end
  ∧ match data !! "admin" with
    | Some path =>
        calls (admin_cell world isfile effect data) w
        = (if isfile w path then [init_admin_db None] else admin_rebuild)
    | None => calls (admin_cell world isfile effect data) w = []
    end
  ∧ match data !! "geohelper" with
    | Some path =>
        calls (geohelper_cell world isfile effect data) w
        = (if isfile w path then [] else geohelper_rebuild)
    | None => calls (geohelper_cell world isfile effect data) w = []
    end.
Proof.
  pose proof (custom_cell_spec w) as Hc.
  pose proof (custom_try_body_raises w) as Hb.
  pose proof (geonames_cell_spec w) as Hg.
  pose proof (admin_cell_spec w) as Ha.
  pose proof (geohelper_cell_spec w) as Hh.
  repeat split.
  - destruct (data !! "custom"); [|by destruct Hc]. by destruct Hc.
  - by destruct (data !! "geonames"); destruct Hg.
  - by destruct (data !! "admin"); destruct Ha.
  - by destruct (data !! "geohelper"); destruct Hh.
Qed.

End RefreshDataFacts.

(** With the store file in place the custom cell still rebuilds, the
    geonames cell does not. *)
Example custom_cell_with_file_present :
  let isfile := λ (w : gset string) p, bool_decide (p ∈ w) in
  let glob := λ (w : gset string) (dir : string), ["data/sources/custom/gvp-volcanoes.csv"] in
  let effect := λ (c : RefreshData.call) (w : gset string), w in
  let data := Config.load Config.nmtrc_data in
  let w : gset string := {[ "~/data/nmnh_ms_tools/geo/custom.sqlite";
                            "~/data/nmnh_ms_tools/geo/geonames.sqlite" ]} in
  RefreshData.calls_of _ (RefreshData.custom_cell _ isfile glob effect data) w
  = [ RefreshData.init_custom_db (Some RefreshData.NullPool);
      RefreshData.CustomFeatures_from_csv "data/sources/custom/gvp-volcanoes.csv" ]
  ∧ RefreshData.calls_of _ (RefreshData.geonames_cell _ isfile effect data) w = [].
Proof. vm_compute. done. Qed.

Section BootstrapUnderFirstConfig.
Import RefreshData.

Context {world : Type}.
Variable isfile : world → string → bool.
Variable glob : world → string → list string.
Variable effect : call → world → world.

Local Abbreviation data := (Config.load Config.part_002_first_data).

Lemma before_geohelper_finishes (s : state world) :
  ∃ s', before_geohelper world isfile effect data s = (inr tt, s').
Proof.
  unfold before_geohelper, seq, bind, geonames_cell, admin_cell,
    try_except_FileNotFoundError, bind, getitem, open.
  rewrite part_002_first_lookup_geonames, part_002_first_lookup_admin. simpl.
  destruct (isfile s.1 "databases/geonames.sqlite"); simpl;
    match goal with |- context [isfile ?w "databases/admin.json"] =>
      destruct (isfile w "databases/admin.json") end; simpl; eauto.
Qed.

(** C10. The first configuration document of src/unnamed/part_002 writes
    [natural_earth] twice under [data] (the loaded value is the later one,
    [databases/thesaurus.yml]) and never writes [geohelper].  With that
    configuration the geohelper cell raises [KeyError], which
    [except FileNotFoundError] does not catch: the cell calls nothing, and
    a run of the notebook stops there, after the geonames and admin cells
    and before the custom cell. *)
Theorem first_config_aborts_bootstrap :
  Config.entries_for "natural_earth" Config.part_002_first_data
  = [ ("natural_earth", "databases/natural_earth.sqlite");
      ("natural_earth", "databases/thesaurus.yml") ]
  ∧ Config.load Config.part_002_first_data !! "natural_earth"
    = Some "databases/thesaurus.yml"
  ∧ Config.entries_for "geohelper" Config.part_002_first_data = []
  ∧ Config.load Config.part_002_first_data !! "geohelper" = None
  ∧ ∀ w : world,
      outcome_of world (geohelper_cell world isfile effect data) w
      = inl (KeyError "geohelper")
      ∧ calls_of world (geohelper_cell world isfile effect data) w = []
      ∧ outcome_of world (run_all world isfile glob effect data) w
        = inl (KeyError "geohelper")
      ∧ calls_of world (run_all world isfile glob effect data) w
        = calls_of world (before_geohelper world isfile effect data) w.
Proof.
  split; [by vm_compute|].
  split; [apply part_002_first_lookup_natural_earth|].
  split; [by vm_compute|].
  split; [apply part_002_first_lookup_geohelper|].
  intros w.
  pose proof (geohelper_cell_spec isfile effect data w) as Hh.
  rewrite part_002_first_lookup_geohelper in Hh.
  destruct Hh as [Hcalls Hout].
  split; [done|]. split; [done|].
  destruct (before_geohelper_finishes (w, [])) as [s' Hs'].
  assert (Hrun : run_all world isfile glob effect data (w, [])
                 = (inl (KeyError "geohelper"), s')).
  { unfold run_all, seq at 1 2, bind.
    unfold before_geohelper, seq, bind in Hs'.
    destruct (geonames_cell world isfile effect data (w, [])) as [[e|[]] s1]; [done|].
    destruct (admin_cell world isfile effect data s1) as [[e|[]] s2]; [done|].
    injection Hs' as ->.
    unfold seq, bind, geohelper_cell, try_except_FileNotFoundError, bind, getitem.
    by rewrite part_002_first_lookup_geohelper. }
  unfold outcome_of, calls_of. by rewrite Hrun, Hs'.
Qed.

End BootstrapUnderFirstConfig.

(** ** The setup cell of the georeferencer notebook *)

Section SetupFacts.
Import GeorefNotebook.

(** What the setup cell leaves in the kernel, whatever ran before it. *)
Lemma setup_cell_spec (k : kernel) :
  ∃ ps k',
    setup_cell k = (ps, k')
    ∧ map cls ps = pipe_order
    ∧ Forall (λ p, next_oid k < oid p) ps
    ∧ classes k' = {| Site_pipe := Some {| cls := MatchGeoNames; oid := next_oid k |};
                      MatchGeoNames_sqlite_cache := Some "caches/records.sqlite";
                      Site_sqlite_cache := Some "caches/localities.sqlite" |}.
Proof.
  unfold setup_cell, kbind, kseq, kbind, kret, new, set_Site_pipe, init_db, tests,
    MatchGeoNames_enable_sqlite_cache, Site_enable_sqlite_cache. simpl.
  do 2 eexists. split; [reflexivity|]. split; [reflexivity|].
  split; [|reflexivity].
  repeat (constructor; [simpl; lia|]). constructor.
Qed.

(** C6 (amended).  The Georeferencer is built with the explicit list of
    seven pipe objects, in the order Manual, PLSS, Between, Border,
    Direction, Custom, GeoNames.  Besides that list the setup cell keeps
    state on the classes: [Site.pipe] holds one more [MatchGeoNames]
    object, which is not a member of the list, and the SQLite caches of
    [MatchGeoNames] and [Site] are switched on by class methods. *)
Theorem setup_keeps_class_level_state (k : kernel) (sites : list (gmap string string)) :
  let ps := (setup_cell k).1 in
  let k' := (setup_cell k).2 in
  pipes (make_geo sites ps) = ps
  ∧ map cls ps = [ MatchManual; MatchPLSS; MatchBetween; MatchBorder;
                   MatchDirection; MatchCustom; MatchGeoNames ]
  ∧ (∃ p0, Site_pipe (classes k') = Some p0 ∧ cls p0 = MatchGeoNames ∧ p0 ∉ ps)
  ∧ MatchGeoNames_sqlite_cache (classes k') = Some "caches/records.sqlite"
  ∧ Site_sqlite_cache (classes k') = Some "caches/localities.sqlite".
Proof.
  destruct (setup_cell_spec k) as (ps & k' & Hrun & Hcls & Hoid & Hclasses).
  rewrite Hrun. simpl. rewrite Hclasses. simpl.
  split; [done|]. split; [exact Hcls|]. split; [|done].
  exists {| cls := MatchGeoNames; oid := next_oid k |}.
  split; [done|]. split; [done|].
  intros Hin. rewrite Forall_forall in Hoid.
  specialize (Hoid _ Hin). simpl in Hoid. lia.
Qed.

(** C6 as stated fails on the notebook: after the setup cell, run in a
    new kernel, a pipe sits on the class [Site] and both class-level
    caches are on. *)
Lemma shipped_setup_has_class_level_state :
  ¬ no_class_level_state (setup_cell fresh).2.
Proof.
  intros (Hpipe & _).
  destruct (setup_cell_spec fresh) as (ps & k' & Hrun & _ & _ & Hclasses).
  rewrite Hrun in Hpipe. simpl in Hpipe. rewrite Hclasses in Hpipe. discriminate.
Qed.

End SetupFacts.

(** ** The export cell of the georeferencer notebook *)

Section ExportFacts.
Import GeorefNotebook.

Variable simplify : geometry_obj → geometry_obj.

Lemma write_rows_acc (results : list result_dict) (acc : list row) :
  write_rows simplify results acc
  = (acc ++ (write_rows simplify results []).1, (write_rows simplify results []).2).
Proof.
  revert acc. induction results as [|result results IH]; intros acc; simpl.
  - by rewrite app_nil_r.
  - destruct (row_of simplify result) as [[| key | |]|r]; simpl;
      try (by rewrite app_nil_r); [apply IH|].
    rewrite (IH (acc ++ [r])), (IH [r]). simpl. by rewrite <- app_assoc.
Qed.

(** A row is written only from a result that has all four keys and a
    site whose simplified geometry has a first shape. *)
Lemma row_of_written (result : result_dict) (r : row) :
  row_of simplify result = inr r →
  ∃ s g sh,
    result !! "site" = Some (VSite s)
    ∧ geometry s = Some g
    ∧ head (geom (simplify g)) = Some sh
    ∧ geometry_text r = wkt sh
    ∧ result !! "location_id" = Some (record_number r)
    ∧ result !! "radius_km" = Some (radius_km r)
    ∧ result !! "description" = Some (description r).
Proof.
  unfold row_of, first_geom, item.
  destruct (result !! "site") as [[| | |s]|] eqn:Hsite; try done.
  destruct (geometry s) as [g|] eqn:Hg; [|done].
  destruct (geom (simplify g)) as [|sh shs] eqn:Hgeom; [done|].
  destruct (result !! "location_id") as [number|]; [|done].
  destruct (result !! "radius_km") as [radius|]; [|done].
  destruct (result !! "description") as [descr|]; [|done].
  intros [= <-]. exists s, g, sh. rewrite Hgeom. by repeat split.
Qed.

Lemma write_rows_provenance (results : list result_dict) (r : row) :
  r ∈ (write_rows simplify results []).1 →
  ∃ result, result ∈ results ∧ row_of simplify result = inr r.
Proof.
  induction results as [|result results IH]; simpl.
  - by intros ?%elem_of_nil.
  - destruct (row_of simplify result) as [[| key | |]|r0] eqn:Hrow; simpl;
      try (by intros ?%elem_of_nil).
    + intros Hin. destruct (IH Hin) as (res & Hres & Hr).
      exists res. split; [by right|done].
    + rewrite write_rows_acc. simpl. intros [->|Hin]%elem_of_cons.
      * exists result. split; [by left|done].
      * destruct (IH Hin) as (res & Hres & Hr).
        exists res. split; [by right|done].
Qed.

(** A result whose row raises [KeyError] leaves no trace in the export. *)
Lemma write_rows_skips (pre post : list result_dict) (result : result_dict) (key : string)
    (acc : list row) :
  row_of simplify result = inl (KeyError key) →
  write_rows simplify (pre ++ result :: post) acc = write_rows simplify (pre ++ post) acc.
Proof.
  intros Hkey. revert acc. induction pre as [|x pre IH]; intros acc; simpl.
  - by rewrite Hkey.
  - destruct (row_of simplify x) as [[| k | |]|r0]; try done; apply IH.
Qed.

(** C5 (amended).  The export writes a row only for an entry of
    [geo.evaluated] that has a site with a geometry, a [location_id], a
    [radius_km] and a [description], and the row carries the text of that
    geometry; an entry without a site is passed over ([except KeyError:
    pass]) as if it were not in [geo.evaluated].  The cell does not read
    [include_failed]: set or not, a record without a geometry never
    appears in the rows. *)
Theorem export_rows_have_geometry (evaluated : list (string * result_dict)) :
  (∀ r, r ∈ (export simplify evaluated).1 →
     ∃ id result s g sh,
       (id, result) ∈ evaluated
       ∧ result !! "site" = Some (VSite s)
       ∧ geometry s = Some g
       ∧ head (geom (simplify g)) = Some sh
       ∧ geometry_text r = wkt sh
       ∧ result !! "location_id" = Some (record_number r)
       ∧ result !! "radius_km" = Some (radius_km r)
       ∧ result !! "description" = Some (description r))
  ∧ (∀ pre id result post,
       evaluated = pre ++ (id, result) :: post →
       result !! "site" = None →
       export simplify evaluated = export simplify (pre ++ post)).
Proof.
  split.
  - intros r Hr. unfold export in Hr.
    destruct (write_rows_provenance _ _ Hr) as (result & Hin & Hrow).
    apply list_elem_of_fmap in Hin as ([id result'] & -> & Hin).
    destruct (row_of_written _ _ Hrow) as (s & g & sh & H).
    by exists id, result', s, g, sh.
  - intros pre id result post -> Hsite. unfold export.
    rewrite !map_app. simpl.
    apply (write_rows_skips _ _ _ "site").
    unfold row_of, first_geom, item. by rewrite Hsite.
Qed.

End ExportFacts.

(** ** The pipe chain *)

Section OrchestratorFacts.
Import GeorefNotebook Orchestrator.

Context {record geometry state : Type}.
Variable behaviour : pipe → record → state → outcome geometry * state.

(** A description cites one strategy only: no strategy name, followed by
    a colon, opens the description written for another strategy. *)
Lemma cites_one_strategy (c c' : pipe_class) (text : string) :
  cites c text → cites c' text → c = c'.
Proof.
  intros [reasoning ->] [reasoning' H]. unfold describe in H.
  destruct c, c'; try reflexivity; exfalso;
    cbv [strategy_name String.append] in H; congruence.
Qed.

(** Once the pipes of [pre] have fallen through and [p] matches, the
    outcome is settled: whatever pipes come after [p] are not run. *)
Lemma dispatch_first_success (r : record) (pre post log : list pipe) (p : pipe)
    (st st1 st' : state) (res : resolution geometry) :
  fall_through behaviour r pre st log st1 →
  behaviour p r st1 = (matched res, st') →
  dispatch behaviour (pre ++ p :: post) r st
  = ({| tried := pre ++ [p]; logged := log; result := Some (report p res) |}, st').
Proof.
  induction 1 as [st|q pre st sta log st1 Hq Hpre IH|q pre st sta log st1 Hq Hpre IH];
    intros Hp; simpl.
  - by rewrite Hp.
  - by rewrite Hq, (IH Hp).
  - by rewrite Hq, (IH Hp).
Qed.

Lemma dispatch_spec (chain : list pipe) (r : record) (st : state) :
  let out := dispatch behaviour chain r st in
  match result out.1 with
  | Some m =>
      ∃ pre p post st1 res,
        chain = pre ++ p :: post
        ∧ fall_through behaviour r pre st (logged out.1) st1
        ∧ behaviour p r st1 = (matched res, out.2)
        ∧ tried out.1 = pre ++ [p]
        ∧ m = report p res
  | None =>
      fall_through behaviour r chain st (logged out.1) out.2 ∧ tried out.1 = chain
  end.
Proof.
  revert st. induction chain as [|p chain IH]; intros st; simpl.
  - split; [constructor|done].
  - destruct (behaviour p r st) as [[res| |] st1] eqn:Hp; simpl.
    + by exists [], p, chain, st, res; repeat split; [constructor|..].
    + specialize (IH st1). simpl in IH.
      destruct (dispatch behaviour chain r st1) as [o st'] eqn:Hrest. simpl in *.
      destruct (result o) as [m|].
      * destruct IH as (pre & p' & post & st2 & res & -> & Hpre & Hp' & Htried & ->).
        exists (p :: pre), p', post, st2, res. rewrite Htried.
        repeat split; [|done]. by eapply fall_through_no_match.
      * destruct IH as [Hall ->]. split; [|done]. by eapply fall_through_no_match.
    + specialize (IH st1). simpl in IH.
      destruct (dispatch behaviour chain r st1) as [o st'] eqn:Hrest. simpl in *.
      destruct (result o) as [m|].
      * destruct IH as (pre & p' & post & st2 & res & -> & Hpre & Hp' & Htried & ->).
        exists (p :: pre), p', post, st2, res. rewrite Htried.
        repeat split; [|done]. by eapply fall_through_hard_failure.
      * destruct IH as [Hall ->]. split; [|done]. by eapply fall_through_hard_failure.
Qed.

(** C1.  For every chain, record and state of the stores the pipes are
    attempted in the order of the chain.  When there is a result, the
    pipes before the winner have each fallen through (no-match, or a hard
    failure, which is logged), the winner is the first pipe that matches,
    its resolution is the match result, the result's description cites the
    winner's strategy and no other, and the pipes after it are not tried:
    the state is the one the winner left, and with any other pipes in
    their place the outcome is the same.  When there is no result all
    pipes have been tried.  The chain the notebook passes is Manual, PLSS,
    Between, Border, Direction, Custom, GeoNames. *)
Theorem first_successful_pipe_wins (chain : list pipe) (r : record) (st : state) :
  let out := dispatch behaviour chain r st in
  match result out.1 with
  | Some m =>
      ∃ pre p post st1 res,
        chain = pre ++ p :: post
        ∧ fall_through behaviour r pre st (logged out.1) st1
        ∧ behaviour p r st1 = (matched res, out.2)
        ∧ tried out.1 = pre ++ [p]
        ∧ resolved m = res
        ∧ produced_by m = p
        ∧ cites (cls p) (description m)
        ∧ (∀ c, cites c (description m) → c = cls p)
        ∧ ∀ post', dispatch behaviour (pre ++ p :: post') r st = out
  | None =>
      fall_through behaviour r chain st (logged out.1) out.2 ∧ tried out.1 = chain
  end
  ∧ ∀ k, map cls (setup_cell k).1
         = [ MatchManual; MatchPLSS; MatchBetween; MatchBorder;
             MatchDirection; MatchCustom; MatchGeoNames ].
Proof.
  split.
  - pose proof (dispatch_spec chain r st) as Hspec. cbv zeta in *.
    destruct (dispatch behaviour chain r st) as [[tr lg [m|]] st'] eqn:Hout;
      simpl in *; [|exact Hspec].
    destruct Hspec as (pre & p & post & st1 & res & Hchain & Hpre & Hp & Htried & ->).
    assert (Hcites : cites (cls p) (description (report p res)))
      by (by exists (res_citation res)).
    exists pre, p, post, st1, res. repeat split; try done.
    + intros c Hc. by apply (cites_one_strategy c (cls p) _ Hc).
    + intros post'. rewrite Htried.
      by apply (dispatch_first_success r pre post' lg p st st1).
  - intros k. destruct (setup_cell_spec k) as (ps & k' & -> & Hcls & _). exact Hcls.
Qed.

End OrchestratorFacts.

Section OrchestratorExamples.
Import GeorefNotebook Orchestrator.

(** Records are their description, geometries their text, and the state
    is the list of gazetteer queries made so far.  The PLSS pipe cannot
    attempt an empty description; the direction pipe places "5 km N of
    Springfield"; the GeoNames pipe places the name Springfield. *)
Local Abbreviation sample_behaviour :=
  (λ (p : pipe) (r : string) (queries : list string),
     match cls p with
     | MatchPLSS =>
         if String.eqb r "" then (hard_failure, queries) else (no_match, queries)
     | MatchDirection =>
         if String.eqb r "5 km N of Springfield" then
           (matched (Resolution "POINT (-93.29 37.26)" (Q2Qc 5)
                                "5 km N of GeoNames feature 4409896"),
            queries ++ ["geonames/Springfield"])
         else (no_match, queries)
     | MatchGeoNames =>
         if String.eqb r "Springfield" then
           (matched (Resolution "POINT (-93.29 37.21)" (Q2Qc 10)
                                "GeoNames feature 4409896"),
            queries ++ ["geonames/Springfield"])
         else (no_match, queries ++ [("geonames/" ++ r)%string])
     | _ => (no_match, queries)
     end).

Local Abbreviation shipped_pipes := ((setup_cell fresh).1).

Example direction_wins_before_geonames :
  dispatch sample_behaviour shipped_pipes "5 km N of Springfield" []
  = ( {| tried := map (λ c, Pipe c.1 c.2)
                      [ (MatchManual, 1); (MatchPLSS, 2); (MatchBetween, 3);
                        (MatchBorder, 4); (MatchDirection, 5) ];
         logged := [];
         result := Some (Match (Resolution "POINT (-93.29 37.26)" (Q2Qc 5)
                                           "5 km N of GeoNames feature 4409896")
                               (Pipe MatchDirection 5)
                               "MatchDirection: 5 km N of GeoNames feature 4409896") |},
      ["geonames/Springfield"] ).
Proof. vm_compute. reflexivity. Qed.

Example no_pipe_matches :
  dispatch sample_behaviour shipped_pipes "" []
  = ( {| tried := shipped_pipes; logged := [Pipe MatchPLSS 2]; result := None |},
      ["geonames/"] ).
Proof. vm_compute. reflexivity. Qed.

End OrchestratorExamples.

Section ExportExamples.
Import GeorefNotebook.

(** A located result, and the result of a record no pipe could place. *)
Local Abbreviation located :=
  ({[ "site" := VSite (Site (Some (GeometryObj [Shape "POINT (-92.2 38.5)"])));
      "location_id" := VStr "L1";
      "radius_km" := VFloat (Q2Qc 1);
      "description" := VStr "Matched to GeoNames feature 4409896" ]} : result_dict).

Local Abbreviation failed :=
  ({[ "location_id" := VStr "L2";
      "description" := VStr "Could not georeference" ]} : result_dict).

Example export_of_two_results :
  export (λ g, g) [("L1", located); ("L2", failed)]
  = ([ {| record_number := VStr "L1";
          geometry_text := "POINT (-92.2 38.5)";
          radius_km := VFloat (Q2Qc 1);
          description := VStr "Matched to GeoNames feature 4409896" |} ], None).
Proof. vm_compute. reflexivity. Qed.

(** A result whose site has no geometry ends the export with
    [AttributeError], after the rows written before it. *)
Example export_stops_on_site_without_geometry :
  export (λ g, g)
    [ ("L1", located);
      ("L2", <["site" := VSite (Site None)]> failed);
      ("L3", located) ]
  = ([ {| record_number := VStr "L1";
          geometry_text := "POINT (-92.2 38.5)";
          radius_km := VFloat (Q2Qc 1);
          description := VStr "Matched to GeoNames feature 4409896" |} ],
     Some AttributeError).
Proof. vm_compute. reflexivity. Qed.

(** C5 (amended) at two results: the written row comes from the located
    result, and the result without a site could as well be absent. *)
Lemma export_rows_have_geometry_witness :
  (∃ id result,
     (id, result) ∈ [("L1", located); ("L2", failed)]
     ∧ result !! "location_id" = Some (VStr "L1")
     ∧ is_Some (result !! "site"))
  ∧ export (λ g, g) [("L1", located); ("L2", failed)]
    = export (λ g, g) [("L1", located)].
Proof.
  pose proof (export_rows_have_geometry (λ g, g) [("L1", located); ("L2", failed)])
    as [Hrows Hskip].
  split.
  - destruct (Hrows {| record_number := VStr "L1";
                       geometry_text := "POINT (-92.2 38.5)";
                       radius_km := VFloat (Q2Qc 1);
                       description := VStr "Matched to GeoNames feature 4409896" |})
      as (id & result & s & g & sh & Hin & Hsite & _ & _ & _ & Hid & _).
    + vm_compute. left.
    + exists id, result. rewrite Hsite. simpl in Hid. eauto.
  - apply (Hskip [("L1", located)] "L2" failed []); [reflexivity|].
    vm_compute. reflexivity.
Defined.

(** C5 as stated fails on the notebook: [include_failed] is set, the
    result of record L2 has no geometry, and the export writes no row for
    it. *)
Lemma failed_record_not_exported :
  ¬ failed_records_exported (λ g, g)
      (make_geo [] (setup_cell fresh).1)
      [("L1", located); ("L2", failed)].
Proof.
  intros Hclaim.
  destruct (Hclaim eq_refl "L2" failed) as (r & number & Hr & Hnum & Hrec).
  - right. left.
  - intros (s & g & Hsite & _). vm_compute in Hsite. discriminate.
  - rewrite export_of_two_results in Hr. simpl in Hr.
    apply list_elem_of_singleton in Hr as ->.
    vm_compute in Hnum. injection Hnum as <-. simpl in Hrec. discriminate.
Qed.

End ExportExamples.

(** ** Whole runs of the data bootstrap notebook *)

Section RefreshDataRuns.
Import RefreshData.

Context {world : Type}.
Variable isfile : world → string → bool.
Variable glob : world → string → list string.
Variable effect : call → world → world.
Variable data : gmap string string.

Local Abbreviation framed c :=
  (∀ w log, c (w, log)
            = (outcome_of world c w,
               (apply_calls world effect (calls_of world c w) w, log ++ calls_of world c w))).

Lemma for_each_invoke_world (f : string → call) (paths : list string) (w : world)
    (log : list call) :
  for_each world paths (λ p, invoke world effect (f p)) (w, log)
  = (inr tt, (apply_calls world effect (map f paths) w, log ++ map f paths)).
Proof.
  revert w log. induction paths as [|p paths IH]; intros w log; simpl.
  - by rewrite app_nil_r.
  - unfold seq, bind, invoke at 1. simpl. rewrite IH. by rewrite <- app_assoc.
Qed.

(** A cell started in the middle of a run does what it does on its own:
    it adds its calls to the log and applies them to the file system. *)
Lemma geonames_cell_framed : framed (geonames_cell world isfile effect data).
Proof.
  intros w log.
  unfold calls_of, outcome_of, apply_calls, geonames_cell, try_except_FileNotFoundError,
    seq, bind, getitem, open, invoke.
  destruct (data !! "geonames") as [path|]; simpl; [|by rewrite app_nil_r].
  destruct (isfile w path); simpl; by rewrite ?app_nil_r, <- ?app_assoc.
Qed.

Lemma admin_cell_framed : framed (admin_cell world isfile effect data).
Proof.
  intros w log.
  unfold calls_of, outcome_of, apply_calls, admin_cell, try_except_FileNotFoundError,
    seq, bind, getitem, open, invoke.
  destruct (data !! "admin") as [path|]; simpl; [|by rewrite app_nil_r].
  destruct (isfile w path); simpl; by rewrite ?app_nil_r, <- ?app_assoc.
Qed.

Lemma geohelper_cell_framed : framed (geohelper_cell world isfile effect data).
Proof.
  intros w log.
  unfold calls_of, outcome_of, apply_calls, geohelper_cell, try_except_FileNotFoundError,
    seq, bind, getitem, open, invoke.
  destruct (data !! "geohelper") as [path|]; simpl; [|by rewrite app_nil_r].
  destruct (isfile w path); simpl; by rewrite ?app_nil_r, <- ?app_assoc.
Qed.

Lemma custom_cell_framed : framed (custom_cell world isfile glob effect data).
Proof.
  intros w log.
  unfold calls_of, outcome_of, custom_cell, custom_try_body, try_except_FileNotFoundError,
    seq, bind, getitem, open.
  destruct (data !! "custom") as [path|]; simpl; [|by rewrite app_nil_r].
  destruct (isfile w path); simpl; rewrite !for_each_invoke_world; simpl;
    by rewrite <- app_assoc.
Qed.

Local Abbreviation g_cell := (geonames_cell world isfile effect data).
Local Abbreviation a_cell := (admin_cell world isfile effect data).
Local Abbreviation h_cell := (geohelper_cell world isfile effect data).
Local Abbreviation c_cell := (custom_cell world isfile glob effect data).
Local Abbreviation after c w := (apply_calls world effect (calls_of world c w) w).

(** A run, cell by cell: each cell starts from the file system the cells
    before it left, and the first one that raises ends the run. *)
Lemma run_all_cells (w : world) :
  run_all world isfile glob effect data (w, [])
  = match outcome_of world g_cell w with
    | inl e => (inl e, (after g_cell w, calls_of world g_cell w))
    | inr _ =>
        let w1 := after g_cell w in
        match outcome_of world a_cell w1 with
        | inl e => (inl e, (after a_cell w1,
                            calls_of world g_cell w ++ calls_of world a_cell w1))
        | inr _ =>
            let w2 := after a_cell w1 in
            match outcome_of world h_cell w2 with
            | inl e => (inl e, (after h_cell w2,
                                (calls_of world g_cell w ++ calls_of world a_cell w1)
                                ++ calls_of world h_cell w2))
            | inr _ =>
                let w3 := after h_cell w2 in
                (outcome_of world c_cell w3,
                 (after c_cell w3,
                  ((calls_of world g_cell w ++ calls_of world a_cell w1)
                   ++ calls_of world h_cell w2) ++ calls_of world c_cell w3))
            end
        end
    end.
Proof.
  unfold run_all, seq, bind.
  rewrite (geonames_cell_framed w []). simpl.
  destruct (outcome_of world g_cell w) as [e|[]]; [done|].
  rewrite admin_cell_framed.
  destruct (outcome_of world a_cell _) as [e|[]]; [done|].
  rewrite geohelper_cell_framed.
  destruct (outcome_of world h_cell _) as [e|[]]; [done|].
  by rewrite custom_cell_framed.
Qed.

Lemma apply_calls_keeps (cs : list call) (w : world) (p : string) :
  (∀ c w' p', isfile w' p' = true → isfile (effect c w') p' = true) →
  isfile w p = true → isfile (apply_calls world effect cs w) p = true.
Proof.
  intros Hkeep. revert w. induction cs as [|c cs IH]; intros w Hw; simpl; [done|].
  apply IH. by apply Hkeep.
Qed.

(** X2.  Suppose library calls never remove a file, and the three
    [init_..._db(poolclass=NullPool)] calls create the geonames, admin and
    geohelper files.  Then after one run of the notebook a second run makes
    no call for geonames and geohelper, calls [init_admin_db()], and
    rebuilds the custom store again. *)
Theorem second_run_rebuilds_custom_only (w : world) (pg pa ph pc : string) :
  data !! "geonames" = Some pg → data !! "admin" = Some pa →
  data !! "geohelper" = Some ph → data !! "custom" = Some pc →
  (∀ c w' p, isfile w' p = true → isfile (effect c w') p = true) →
  (∀ w', isfile (effect (init_geonames_db (Some NullPool)) w') pg = true) →
  (∀ w', isfile (effect (init_admin_db (Some NullPool)) w') pa = true) →
  (∀ w', isfile (effect (init_helper_db (Some NullPool)) w') ph = true) →
  let w1 := (run_all world isfile glob effect data (w, [])).2.1 in
  calls_of world (run_all world isfile glob effect data) w1
  = init_admin_db None
    :: custom_rebuild world glob effect (effect (init_admin_db None) w1).
Proof.
  intros Hg Ha Hh Hc Hkeep Hmkg Hmka Hmkh w1.
  (* the first run: every cell ends normally *)
  pose proof (geonames_cell_spec isfile effect data w) as Sg. rewrite Hg in Sg.
  destruct Sg as [Cg Og].
  pose proof (admin_cell_spec isfile effect data (after g_cell w)) as Sa. rewrite Ha in Sa.
  destruct Sa as [Ca Oa].
  pose proof (geohelper_cell_spec isfile effect data (after a_cell (after g_cell w))) as Sh.
  rewrite Hh in Sh. destruct Sh as [Ch Oh].
  assert (Hw1 : w1 = after c_cell (after h_cell (after a_cell (after g_cell w)))).
  { subst w1. rewrite run_all_cells. cbv zeta. rewrite Og. cbv beta iota.
    rewrite Oa. cbv beta iota. rewrite Oh. reflexivity. }
  (* it leaves the three files in place *)
  assert (Fg : isfile (after g_cell w) pg = true).
  { rewrite Cg. destruct (isfile w pg) eqn:E; unfold apply_calls; simpl; [done|].
    by apply Hkeep. }
  assert (Fa : isfile (after a_cell (after g_cell w)) pa = true).
  { rewrite Ca. destruct (isfile (after g_cell w) pa) eqn:E; unfold apply_calls at 1; simpl;
      by apply Hkeep. }
  assert (Fh : isfile (after h_cell (after a_cell (after g_cell w))) ph = true).
  { rewrite Ch. destruct (isfile (after a_cell (after g_cell w)) ph) eqn:E;
      unfold apply_calls at 1; simpl; [done|]. by do 3 apply Hkeep. }
  assert (Hfiles : isfile w1 pg = true ∧ isfile w1 pa = true ∧ isfile w1 ph = true).
  { rewrite Hw1. repeat split.
    - do 3 (apply apply_calls_keeps; [done|]). done.
    - do 2 (apply apply_calls_keeps; [done|]). done.
    - by apply apply_calls_keeps. }
  destruct Hfiles as (Gg & Ga & Gh). clearbody w1.
  clear Cg Og Ca Oa Ch Oh Fg Fa Fh Hw1.
  (* the second run *)
  pose proof (geonames_cell_spec isfile effect data w1) as Sg. rewrite Hg, Gg in Sg.
  destruct Sg as [Cg Og].
  assert (Hwa : after g_cell w1 = w1) by (by rewrite Cg).
  pose proof (admin_cell_spec isfile effect data w1) as Sa. rewrite Ha, Ga in Sa.
  destruct Sa as [Ca Oa].
  assert (Hwb : after a_cell w1 = effect (init_admin_db None) w1) by (by rewrite Ca).
  pose proof (geohelper_cell_spec isfile effect data (effect (init_admin_db None) w1)) as Sh.
  rewrite Hh, (Hkeep _ _ _ Gh) in Sh. destruct Sh as [Ch Oh].
  assert (Hwc : after h_cell (effect (init_admin_db None) w1)
                = effect (init_admin_db None) w1) by (by rewrite Ch).
  pose proof (custom_cell_spec isfile glob effect data (effect (init_admin_db None) w1)) as Sc.
  rewrite Hc in Sc. destruct Sc as [Cc _].
  unfold calls_of at 1. rewrite run_all_cells. cbv zeta.
  rewrite Og. cbv beta iota. rewrite Hwa, Oa. cbv beta iota.
  rewrite Hwb, Oh. cbv beta iota. rewrite Hwc. simpl.
  by rewrite Cg, Ca, Ch, Cc.
Qed.

End RefreshDataRuns.

(** ** Running the setup cell, once and again *)

Section SetupRuns.
Import GeorefNotebook.

Local Abbreviation shipped_inits :=
  [ init_admin_db; init_custom_db; init_geohelper_db; init_geonames_db;
    init_geojob_db "job.sqlite" ].





End SetupRuns.

(** ** The export loop as a whole *)

Section ExportRuns.
Import GeorefNotebook.

Variable simplify : geometry_obj → geometry_obj.

Lemma write_rows_app (a b : list result_dict) (acc : list row) :
  write_rows simplify (a ++ b) acc
  = match write_rows simplify a acc with
    | (rows, None) => write_rows simplify b rows
    | (rows, Some e) => (rows, Some e)
    end.
Proof.
  revert acc. induction a as [|x a IH]; intros acc; simpl; [done|].
  destruct (row_of simplify x) as [[| key | |]|r]; try done; apply IH.
Qed.

Lemma write_rows_no_stop (results : list result_dict) (acc : list row) :
  Forall (λ res, stops simplify res = None) results →
  write_rows simplify results acc = (acc ++ omap (written simplify) results, None).
Proof.
  intros Hall. revert acc.
  induction Hall as [|x results Hx _ IH]; intros acc; simpl.
  - by rewrite app_nil_r.
  - unfold stops in Hx. unfold written at 1.
    destruct (row_of simplify x) as [[| key | |]|r]; try done.
    rewrite IH. simpl. by rewrite <- app_assoc.
Qed.

Lemma write_rows_stop (res : result_dict) (post : list result_dict) (acc : list row) (e : exn) :
  stops simplify res = Some e →
  write_rows simplify (res :: post) acc = (acc, Some e).
Proof.
  unfold stops. simpl.
  by destruct (row_of simplify res) as [[| key | |]|r]; intros [= <-].
Qed.

(** X7.  When no result raises anything but [KeyError], the export ends
    normally and has written, in the order of [geo.evaluated], the row of
    every result that has a row. *)
Theorem export_without_stop (evaluated : list (string * result_dict)) :
  Forall (λ entry, stops simplify entry.2 = None) evaluated →
  export simplify evaluated = (omap (written simplify) (map snd evaluated), None).
Proof.
  intros Hall. unfold export.
  rewrite write_rows_no_stop; [done|]. by apply Forall_fmap.
Qed.

(** X8.  The first result that raises [AttributeError] or [IndexError] ends
    the export with that exception: the rows of the results before it are
    written, and no result after it is looked at. *)
Theorem export_stops_at_first_error
    (pre post : list (string * result_dict)) (id : string) (res : result_dict) (e : exn) :
  Forall (λ entry, stops simplify entry.2 = None) pre →
  stops simplify res = Some e →
  export simplify (pre ++ (id, res) :: post)
  = (omap (written simplify) (map snd pre), Some e).
Proof.
  intros Hpre Hres. unfold export. rewrite map_app. simpl.
  rewrite write_rows_app, write_rows_no_stop by (by apply Forall_fmap).
  simpl. by apply write_rows_stop.
Qed.

(** X9.  Exporting two batches of results in a row: if the first batch
    ends with an exception that is the outcome, otherwise the rows of the
    second batch follow those of the first and the second decides how the
    export ends. *)
Theorem export_app (a b : list (string * result_dict)) :
  export simplify (a ++ b)
  = match (export simplify a).2 with
    | Some e => export simplify a
    | None => ((export simplify a).1 ++ (export simplify b).1, (export simplify b).2)
    end.
Proof.
  unfold export. rewrite map_app, write_rows_app.
  destruct (write_rows simplify (map snd a) []) as [rows [e|]]; simpl; [done|].
  apply write_rows_acc.
Qed.

Lemma row_of_other_key (res : result_dict) (k : string) (v : value) :
  k ∉ ["site"; "location_id"; "radius_km"; "description"] →
  row_of simplify (<[k := v]> res) = row_of simplify res.
Proof.
  intros Hk. unfold row_of, first_geom, item, result_dict in *.
  rewrite !lookup_insert_ne; [done|intros ->; apply Hk..].
  - do 3 right. left.
  - do 2 right. left.
  - right. left.
  - left.
Qed.

(** X10.  The export reads the four keys site, location_id, radius_km and
    description of each result and nothing else: setting any other key in
    every result, and renaming the keys of [geo.evaluated], changes
    neither the rows nor the way the export ends. *)
Theorem export_reads_four_keys
    (evaluated : list (string * result_dict)) (rename : string → string)
    (k : string) (v : value) :
  k ∉ ["site"; "location_id"; "radius_km"; "description"] →
  export simplify (map (λ entry, (rename entry.1, <[k := v]> entry.2)) evaluated)
  = export simplify evaluated.
Proof.
  intros Hk. unfold export. rewrite map_map. simpl.
  generalize (@nil row).
  induction evaluated as [|[id res] evaluated IH]; intros acc; simpl; [done|].
  rewrite row_of_other_key by done.
  destruct (row_of simplify res) as [[| key | |]|r]; try done; apply IH.
Qed.

(** X12.  When every result has a row (a site with a geometry whose
    simplified form has a first shape, and the three other keys), nothing is
    lost: the export ends normally with one row per result, in order, each
    under the [location_id] of its result. *)
Theorem export_of_complete_results (evaluated : list (string * result_dict)) :
  Forall (λ entry, is_Some (written simplify entry.2)) evaluated →
  (export simplify evaluated).2 = None
  ∧ Forall2 (λ entry r, entry.2 !! "location_id" = Some (record_number r))
            evaluated (export simplify evaluated).1.
Proof.
  intros Hall. unfold export.
  induction Hall as [|[id res] evaluated [r Hr] _ IH]; simpl; [by split|].
  unfold written in Hr. simpl in Hr.
  destruct (row_of simplify res) as [e|r'] eqn:Hrow; [done|]. injection Hr as ->.
  rewrite write_rows_acc. simpl. destruct IH as [IHend IHrows]. split; [done|].
  constructor; [|done]. simpl.
  by destruct (row_of_written simplify res r Hrow) as (s & g & sh & _ & _ & _ & _ & Hid & _).
Qed.

End ExportRuns.

(** ** The log filter *)

Section FilterFacts.
Import GeorefNotebook.

Lemma prefix_app (p s : string) :
  String.prefix p s = true ↔ ∃ rest, s = (p ++ rest)%string.
Proof.
  revert s. induction p as [|a p IH]; intros s.
  - destruct s; simpl; (split; [intros _; by eexists|done]).
  - destruct s as [|b s]; simpl.
    + split; [done|]. by intros [rest Hrest].
    + destruct (Ascii.ascii_dec a b) as [->|Hne].
      * rewrite IH. split; intros [rest Hrest]; exists rest.
        -- by rewrite Hrest.
        -- change (String b s = String b (p ++ rest)%string) in Hrest. congruence.
      * split; [done|]. intros [rest Hrest].
        change (String b s = String a (p ++ rest)%string) in Hrest. congruence.
Qed.

Lemma string_app_assoc (s1 s2 s3 : string) :
  ((s1 ++ s2) ++ s3 = s1 ++ (s2 ++ s3))%string.
Proof.
  induction s1 as [|a s1 IH]; [done|].
  change (String a ((s1 ++ s2) ++ s3) = String a (s1 ++ (s2 ++ s3)))%string.
  by rewrite IH.
Qed.

Lemma string_length_app (s1 s2 : string) :
  String.length (s1 ++ s2)%string = String.length s1 + String.length s2.
Proof.
  induction s1 as [|a s1 IH]; [done|].
  change (S (String.length (s1 ++ s2)%string) = S (String.length s1 + String.length s2)).
  by rewrite IH.
Qed.

(** X11.  The filter lets a record through exactly when its logger name
    is [nmnh_ms_tools.tools.georeferencer] followed by anything (nothing,
    a dotted child, or any other text); so a name that passes still passes
    with text appended, and a name shorter than the prefix never passes. *)
Theorem filter_accepts_extensions (name : string) :
  (GeoreferencerOnlyFilter_filter name = true
   ↔ ∃ rest, name = ("nmnh_ms_tools.tools.georeferencer" ++ rest)%string)
  ∧ (∀ more, GeoreferencerOnlyFilter_filter name = true →
             GeoreferencerOnlyFilter_filter (name ++ more)%string = true)
  ∧ (String.length name < 33 → GeoreferencerOnlyFilter_filter name = false).
Proof.
  unfold GeoreferencerOnlyFilter_filter. split; [apply prefix_app|]. split.
  - intros more [rest ->]%prefix_app. apply prefix_app.
    exists (rest ++ more)%string. by rewrite string_app_assoc.
  - intros Hlen. destruct (String.prefix _ name) eqn:E; [|done].
    apply prefix_app in E as [rest ->].
    rewrite string_length_app in Hlen. simpl in Hlen. lia.
Qed.

End FilterFacts.

(** ** The statements with preconditions, at sample inputs *)

Section SampleRuns.
Import RefreshData.

(** A file system is the set of its files; the three [init_..._db] calls
    with a pool class create their store file; the custom sources hold one
    CSV. *)
Local Abbreviation sample_isfile := (λ (w : gset string) (p : string), bool_decide (p ∈ w)).
Local Abbreviation sample_glob :=
  (λ (w : gset string) (dir : string), ["data/sources/custom/gvp-volcanoes.csv"]).
Local Abbreviation sample_effect :=
  (λ (c : call) (w : gset string),
     match c with
     | init_geonames_db (Some NullPool) => {[ "~/data/nmnh_ms_tools/geo/geonames.sqlite" ]} ∪ w
     | init_admin_db (Some NullPool) => {[ "~/data/nmnh_ms_tools/geo/admin.sqlite" ]} ∪ w
     | init_helper_db (Some NullPool) => {[ "~/data/nmnh_ms_tools/geo/geohelper.sqlite" ]} ∪ w
     | _ => w
     end).

(** X2 on an empty file system with the [data] mapping of [.nmtrc]. *)
Lemma second_run_rebuilds_custom_only_witness :
  let run := run_all (gset string) sample_isfile sample_glob sample_effect
                     (Config.load Config.nmtrc_data) in
  calls_of (gset string) run (run (∅, [])).2.1
  = [ init_admin_db None;
      init_custom_db (Some NullPool);
      CustomFeatures_from_csv "data/sources/custom/gvp-volcanoes.csv" ].
Proof.
  intros run.
  apply (second_run_rebuilds_custom_only sample_isfile sample_glob sample_effect
           (Config.load Config.nmtrc_data) ∅
           "~/data/nmnh_ms_tools/geo/geonames.sqlite"
           "~/data/nmnh_ms_tools/geo/admin.sqlite"
           "~/data/nmnh_ms_tools/geo/geohelper.sqlite"
           "~/data/nmnh_ms_tools/geo/custom.sqlite").
  - vm_compute. reflexivity.
  - vm_compute. reflexivity.
  - vm_compute. reflexivity.
  - vm_compute. reflexivity.
  - intros c w p Hp. apply bool_decide_eq_true in Hp. apply bool_decide_eq_true.
    destruct c as [[[]|]| |[[]|]| | |[[]|]| | | | |]; set_solver.
  - intros w. apply bool_decide_eq_true. set_solver.
  - intros w. apply bool_decide_eq_true. set_solver.
  - intros w. apply bool_decide_eq_true. set_solver.
Defined.

End SampleRuns.

Section SampleExports.
Import GeorefNotebook.

Local Abbreviation located_result :=
  ({[ "site" := VSite (Site (Some (GeometryObj [Shape "POINT (-92.2 38.5)"])));
      "location_id" := VStr "L1";
      "radius_km" := VFloat (Q2Qc 1);
      "description" := VStr "Matched to GeoNames feature 4409896" ]} : result_dict).

Local Abbreviation failed_result :=
  ({[ "location_id" := VStr "L2";
      "description" := VStr "Could not georeference" ]} : result_dict).

Local Abbreviation no_geometry_result :=
  (<["site" := VSite (Site None)]> failed_result : result_dict).

Local Abbreviation located_row :=
  {| record_number := VStr "L1";
     geometry_text := "POINT (-92.2 38.5)";
     radius_km := VFloat (Q2Qc 1);
     description := VStr "Matched to GeoNames feature 4409896" |}.

(** X7 at a located result followed by one without a site. *)
Lemma export_without_stop_witness :
  export (λ g, g) [("L1", located_result); ("L2", failed_result)] = ([located_row], None).
Proof.
  rewrite (export_without_stop (λ g, g) [("L1", located_result); ("L2", failed_result)]).
  - vm_compute. reflexivity.
  - repeat constructor.
Defined.

(** X8 at a result whose site has no geometry, between two located ones. *)
Lemma export_stops_at_first_error_witness :
  export (λ g, g)
    ([("L1", located_result)] ++ ("L2", no_geometry_result) :: [("L3", located_result)])
  = ([located_row], Some AttributeError).
Proof.
  rewrite (export_stops_at_first_error (λ g, g) [("L1", located_result)]
             [("L3", located_result)] "L2" no_geometry_result AttributeError).
  - vm_compute. reflexivity.
  - repeat constructor.
  - vm_compute. reflexivity.
Defined.

(** X10 with a key [elevation] set in every result. *)
Lemma export_reads_four_keys_witness :
  export (λ g, g)
    (map (λ entry, ((entry.1 ++ "-copy")%string, <["elevation" := VFloat (Q2Qc 250)]> entry.2))
         [("L1", located_result); ("L2", failed_result)])
  = export (λ g, g) [("L1", located_result); ("L2", failed_result)].
Proof.
  apply (export_reads_four_keys (λ g, g) [("L1", located_result); ("L2", failed_result)]
           (λ id, (id ++ "-copy")%string) "elevation" (VFloat (Q2Qc 250))).
  rewrite !elem_of_cons, elem_of_nil. intros H.
  repeat (destruct H as [H|H]; [discriminate|]). done.
Defined.

(** X12 at two located results. *)
Lemma export_of_complete_results_witness :
  (export (λ g, g) [("L1", located_result); ("L3", located_result)]).2 = None
  ∧ length (export (λ g, g) [("L1", located_result); ("L3", located_result)]).1 = 2.
Proof.
  destruct (export_of_complete_results (λ g, g)
              [("L1", located_result); ("L3", located_result)]) as [Hend Hrows].
  - repeat constructor; vm_compute; eauto.
  - split; [exact Hend|].
    apply Forall2_length in Hrows. by rewrite <- Hrows.
Defined.

(** X11 at the logger of the pipes module. *)
Lemma filter_accepts_extensions_witness :
  GeoreferencerOnlyFilter_filter "nmnh_ms_tools.tools.georeferencer.pipes.core" = true
  ∧ GeoreferencerOnlyFilter_filter "nmnh_ms_tools" = false.
Proof.
  destruct (filter_accepts_extensions "nmnh_ms_tools.tools.georeferencer.pipes")
    as (_ & Hext & _).
  destruct (filter_accepts_extensions "nmnh_ms_tools") as (_ & _ & Hshort).
  split.
  - apply (Hext ".core"). vm_compute. reflexivity.
  - apply Hshort. vm_compute. lia.
Defined.

End SampleExports.
